(** * The notes service of [src/app.py], embedded and verified

    The service is a FastAPI application with eight handlers over one MongoDB
    collection.  Handlers are embedded as functions in a state monad over the
    collection; the driver calls they make ([find], [find_one], [insert_one],
    [update_one], [delete_one]) are given an executable model in [Collection]. *)

From stdpp Require Import gmap strings list fin_maps.
From Stdlib Require Import ZArith Ascii.

#[local] Set Warnings "-clear-no-such-hyp".

(** ** Values

    [pyval] are the Python values a pydantic model holds in its fields,
    [json] the values [jsonable_encoder] produces and the collection stores.
    A [datetime] is known through its ISO-8601 rendering only, which is all
    the encoder keeps of it. *)

Record datetime := Datetime { isoformat : string }.

Inductive pyval :=
| PNone
| PBool (b : bool)
| PStr (s : string)
| PDatetime (d : datetime).

Inductive json :=
| JNull
| JBool (b : bool)
| JStr (s : string).

Global Instance datetime_eq_dec : EqDecision datetime.
Proof. solve_decision. Defined.
Global Instance pyval_eq_dec : EqDecision pyval.
Proof. solve_decision. Defined.
Global Instance json_eq_dec : EqDecision json.
Proof. solve_decision. Defined.

(** A stored document, and a Python [dict] with its insertion order. *)
Abbreviation document := (gmap string json).
Abbreviation pydict := (list (string * pyval)).
Abbreviation collection := (list document).

(** [not v] of Python. *)
Definition py_not (v : pyval) : bool :=
  match v with
  | PNone => true
  | PBool b => negb b
  | PStr s => bool_decide (s = "")
  | PDatetime _ => false
  end.

(** [jsonable_encoder] on a field value: a datetime becomes its ISO string. *)
Definition jsonable_encoder (v : pyval) : json :=
  match v with
  | PNone => JNull
  | PBool b => JBool b
  | PStr s => JStr s
  | PDatetime d => JStr (isoformat d)
  end.

(** [jsonable_encoder] on a dict encodes every value and keeps every key. *)
Definition jsonable_encoder_dict (d : pydict) : list (string * json) :=
  prod_map id jsonable_encoder <$> d.

(** ** The database monad

    Every [await db["notes"]...] reads or writes the one collection. *)

Definition DB (A : Type) : Type := collection → A * collection.

Definition ret {A} (a : A) : DB A := λ s, (a, s).

Definition bind {A B} (m : DB A) (k : A → DB B) : DB B :=
  λ s, let '(a, s') := m s in k a s'.

Notation "'await' x ← m ; k" := (bind m (λ x, k))
  (at level 10, x name, m at level 99, k at level 200,
   format "'[v' 'await'  x  ←  m ; '/' k ']'").

(** ** The driver calls *)

Module Collection.

Record UpdateResult := { matched_count : nat; modified_count : nat }.
Record DeleteResult := { deleted_count : nat }.

(** An equality filter [{k: v, ...}] selects the documents that carry
    every one of its fields with that value. *)
Definition matches (q d : document) : Prop := q ⊆ d.

Global Instance matches_dec q d : Decision (matches q d).
Proof. unfold matches. apply _. Defined.

(** [find(q).to_list(n)]: the matching documents in natural order, at most
    [n] of them. *)
Definition find_to_list (q : document) (n : nat) : DB (list document) :=
  λ s, (take n (filter (matches q) s), s).

(** [find_one(q)]: the first matching document, [None] when there is none. *)
Definition find_one (q : document) : DB (option document) :=
  λ s, (snd <$> list_find (matches q) s, s).

(** [insert_one(doc)]: the [_id] index is unique, a second document with a
    stored [_id] is refused with [DuplicateKeyError].  The service only
    inserts documents that carry [_id]; for one without, the driver would
    draw an id of its own, which this model does not do. *)
Definition insert_one (doc : document) : DB (string + json) :=
  λ s,
    match doc !! "_id" with
    | Some i =>
        if bool_decide (Exists (λ d, d !! "_id" = Some i) s)
        then (inl "DuplicateKeyError", s)
        else (inr i, s ++ [doc])
    | None => (inl "InvalidDocument", s)
    end.

(** The document after [{"$set": fields}]. *)
Definition apply_set (fields : list (string * json)) (d : document) : document :=
  list_to_map fields ∪ d.

(** [update_one(q, {"$set": fields})]: the first matching document gets the
    fields; it counts as modified when that changed it. *)
Definition update_one (q : document) (fields : list (string * json))
  : DB UpdateResult :=
  λ s,
    match list_find (matches q) s with
    | Some (i, d) =>
        let d' := apply_set fields d in
        ({| matched_count := 1;
            modified_count := if bool_decide (d' = d) then 0 else 1 |},
         <[i := d']> s)
    | None => ({| matched_count := 0; modified_count := 0 |}, s)
    end.

(** [delete_one(q)]: the first matching document is removed. *)
Definition delete_one (q : document) : DB DeleteResult :=
  λ s,
    match list_find (matches q) s with
    | Some (i, _) => ({| deleted_count := 1 |}, delete i s)
    | None => ({| deleted_count := 0 |}, s)
    end.

End Collection.

Import Collection.

(** ** The models *)

(** A field of a JSON request body: left out, [null], or given. *)
Inductive field (A : Type) :=
| Absent
| Null
| Given (a : A).
Arguments Absent {A}.
Arguments Null {A}.
Arguments Given {A} a.

(** [ObjectId.is_valid] on a string: 24 hexadecimal digits. *)
Definition is_hex (c : ascii) : bool :=
  let n := nat_of_ascii c in
  bool_decide (48 ≤ n ≤ 57) || bool_decide (65 ≤ n ≤ 70)
  || bool_decide (97 ≤ n ≤ 102).

Fixpoint all_hex (s : string) : bool :=
  match s with
  | EmptyString => true
  | String c r => is_hex c && all_hex r
  end.

Definition ObjectId_is_valid (v : string) : bool :=
  bool_decide (String.length v = 24) && all_hex v.

(** [str(ObjectId(v))]: the digits in lower case. *)
Definition lower (c : ascii) : ascii :=
  let n := nat_of_ascii c in
  if bool_decide (65 ≤ n ≤ 90) then ascii_of_nat (n + 32) else c.

Fixpoint ObjectId_str (v : string) : string :=
  match v with
  | EmptyString => EmptyString
  | String c r => String (lower c) (ObjectId_str r)
  end.

Record NoteModel := {
  _id : string;
  created : option datetime;
  updated : option datetime;
  text : string;
  author : string;
  in_trash : bool
}.

Record UpdateNoteModel := {
  u_created : option datetime;
  u_updated : option datetime;
  u_text : option string;
  u_author : option string;
  u_in_trash : option bool
}.

(** What is fixed when the module is imported: the class attribute
    [created: Optional[datetime] = datetime.utcnow()] is evaluated once, with
    the clock of that moment. *)
Record module_state := { NoteModel_created_default : option datetime }.

Definition import_app (utcnow : datetime) : module_state :=
  {| NoteModel_created_default := Some utcnow |}.

(** The body of [POST /]. *)
Record NoteBody := {
  b_id : field string;
  b_created : field datetime;
  b_updated : field datetime;
  b_text : string;
  b_author : string;
  b_in_trash : bool
}.

(** The body of the three [PUT] routes. *)
Record UpdateNoteBody := {
  ub_created : field datetime;
  ub_updated : field datetime;
  ub_text : field string;
  ub_author : field string;
  ub_in_trash : field bool
}.

(** An [Optional] field: its default when left out, [None] for [null]. *)
Definition optional {A} (default : option A) (f : field A) : option A :=
  match f with
  | Absent => default
  | Null => None
  | Given a => Some a
  end.

(** Validation of a [NoteModel] body.  [factory] is the [ObjectId] that
    [default_factory=PyObjectId] draws for this request; [None] is a
    validation error ([ValueError("Invalid objectid")], or [null] for the
    id). *)
Definition NoteModel_validate (m : module_state) (factory : string)
    (b : NoteBody) : option NoteModel :=
  let fields (i : string) :=
    {| _id := i;
       created := optional (NoteModel_created_default m) (b_created b);
       updated := optional None (b_updated b);
       text := b_text b;
       author := b_author b;
       in_trash := b_in_trash b |} in
  match b_id b with
  | Absent => Some (fields factory)
  | Null => None
  | Given v =>
      if ObjectId_is_valid v then Some (fields (ObjectId_str v)) else None
  end.

Definition UpdateNoteModel_validate (b : UpdateNoteBody) : UpdateNoteModel :=
  {| u_created := optional None (ub_created b);
     u_updated := optional None (ub_updated b);
     u_text := optional None (ub_text b);
     u_author := optional None (ub_author b);
     u_in_trash := optional None (ub_in_trash b) |}.

(** [note.dict()] *)
Definition opt_val {A} (inj : A → pyval) (o : option A) : pyval :=
  from_option inj PNone o.

Definition UpdateNoteModel_dict (note : UpdateNoteModel) : pydict :=
  [ ("created", opt_val PDatetime (u_created note));
    ("updated", opt_val PDatetime (u_updated note));
    ("text", opt_val PStr (u_text note));
    ("author", opt_val PStr (u_author note));
    ("in_trash", opt_val PBool (u_in_trash note)) ].

(** [jsonable_encoder(note)] for a [NoteModel]: by alias, [None] kept. *)
Definition NoteModel_encode (note : NoteModel) : document :=
  list_to_map
    [ ("_id", JStr (_id note));
      ("created", jsonable_encoder (opt_val PDatetime (created note)));
      ("updated", jsonable_encoder (opt_val PDatetime (updated note)));
      ("text", JStr (text note));
      ("author", JStr (author note));
      ("in_trash", JBool (in_trash note)) ].

(** [d[k]] on a dict. *)
Definition getitem (d : pydict) (k : string) : option pyval :=
  (λ p, p.2.2) <$> list_find (λ kv, kv.1 = k) d.

(** ** The handlers *)

Inductive content :=
| Doc (d : document)
| Docs (l : list document)
| NoContent.

Inductive result :=
| JSONResponse (status_code : Z) (body : content)
| HTTPException (status_code : Z) (detail : string)
| Unhandled (exc : string).

Global Instance content_eq_dec : EqDecision content.
Proof. solve_decision. Defined.
Global Instance result_eq_dec : EqDecision result.
Proof. solve_decision. Defined.

Definition by_id (id : string) : document := {[ "_id" := JStr id ]}.
Definition by_in_trash (b : bool) : document := {[ "in_trash" := JBool b ]}.

Definition not_found (id : string) : result :=
  HTTPException 404 ("Note " +:+ id +:+ " not found").

Definition create_note (note : NoteModel) : DB result :=
  let note := NoteModel_encode note in
  await new_note ← insert_one note ;
  match new_note with
  | inl exc => ret (Unhandled exc)
  | inr inserted_id =>
      await created_note ← find_one {[ "_id" := inserted_id ]} ;
      ret (JSONResponse 201 (from_option Doc NoContent created_note))
  end.

Definition list_all_notes : DB result :=
  await notes ← find_to_list (by_in_trash false) 1000 ;
  ret (JSONResponse 200 (Docs notes)).

Definition list_deleted_notes : DB result :=
  await notes ← find_to_list (by_in_trash true) 1000 ;
  ret (JSONResponse 200 (Docs notes)).

Definition show_note (id : string) : DB result :=
  await note ← find_one (by_id id) ;
  match note with
  | Some note => ret (JSONResponse 200 (Doc note))
  | None => ret (not_found id)
  end.

(** [jsonable_encoder({k: v for k, v in note.dict().items() if v is not None})] *)
Definition sparse (note : UpdateNoteModel) : list (string * json) :=
  jsonable_encoder_dict
    (filter (λ kv, kv.2 ≠ PNone) (UpdateNoteModel_dict note)).

Definition update_note (id : string) (note : UpdateNoteModel) : DB result :=
  let note := sparse note in
  let existing : DB result :=
    await existing_note ← find_one (by_id id) ;
    match existing_note with
    | Some existing_note => ret (JSONResponse 200 (Doc existing_note))
    | None => ret (not_found id)
    end in
  if bool_decide (1 ≤ length note) then
    await update_result ← update_one (by_id id) note ;
    if bool_decide (modified_count update_result = 1) then
      await updated_note ← find_one (by_id id) ;
      match updated_note with
      | Some updated_note => ret (JSONResponse 200 (Doc updated_note))
      | None => existing
      end
    else existing
  else existing.

(** [remove_note] and [move_note] differ in the flag they write only. *)
Definition set_trash (flag : bool) (id : string) (note : UpdateNoteModel)
    : DB result :=
  let note := UpdateNoteModel_dict note in
  match getitem note "in_trash" with
  | None => ret (Unhandled "KeyError")
  | Some v =>
      if py_not v then
        await _r ← update_one (by_id id) [("in_trash", JBool flag)] ;
        await updated_note ← find_one (by_id id) ;
        match updated_note with
        | Some updated_note => ret (JSONResponse 200 (Doc updated_note))
        | None => ret (not_found id)
        end
      else ret (not_found id)
  end.

Definition remove_note : string → UpdateNoteModel → DB result := set_trash true.
Definition move_note : string → UpdateNoteModel → DB result := set_trash false.

Definition delete_note (id : string) : DB result :=
  await delete_result ← delete_one (by_id id) ;
  if bool_decide (deleted_count delete_result = 1)
  then ret (JSONResponse 204 NoContent)
  else ret (not_found id).

(** The routes, from the request body to the handler. *)
Definition post_note (m : module_state) (factory : string) (b : NoteBody)
    : DB result :=
  match NoteModel_validate m factory b with
  | Some note => create_note note
  | None => ret (HTTPException 422 "validation error")
  end.

Definition put_note (id : string) (b : UpdateNoteBody) : DB result :=
  update_note id (UpdateNoteModel_validate b).

Definition put_to_trash (id : string) (b : UpdateNoteBody) : DB result :=
  remove_note id (UpdateNoteModel_validate b).

Definition put_from_trash (id : string) (b : UpdateNoteBody) : DB result :=
  move_note id (UpdateNoteModel_validate b).

(** ** Stored state

    The [_id] index keeps ids unique, and every document the service stores
    has the fields of a Note with their types. *)

Definition doc_id (d : document) : option json := d !! "_id".

Definition is_str (o : option json) : bool :=
  match o with Some (JStr _) => true | _ => false end.

Definition is_opt_str (o : option json) : bool :=
  match o with Some (JStr _) | Some JNull => true | _ => false end.

Definition is_bool (o : option json) : bool :=
  match o with Some (JBool _) => true | _ => false end.

Definition is_note (d : document) : bool :=
  is_str (d !! "_id") && is_opt_str (d !! "created")
  && is_opt_str (d !! "updated") && is_str (d !! "text")
  && is_str (d !! "author") && is_bool (d !! "in_trash").

Definition unique_ids (s : collection) : Prop := NoDup (doc_id <$> s).

Definition wf_store (s : collection) : Prop :=
  unique_ids s ∧ Forall (λ d, is_note d = true) s.

Global Instance wf_store_dec s : Decision (wf_store s).
Proof. unfold wf_store, unique_ids. apply _. Defined.

(** The ids of a list of documents, as a set. *)
Definition id_str (d : document) : option string :=
  match d !! "_id" with Some (JStr i) => Some i | _ => None end.

Definition ids (l : list document) : gset string := list_to_set (omap id_str l).

(** ** What the claims speak of *)

(** The guard of the two trash routes lets everything through but
    [in_trash: true]. *)
Definition guard_passes (flag : option bool) : bool :=
  match flag with Some true => false | _ => true end.

(** The body with its [in_trash] replaced. *)
Definition with_in_trash (f : field bool) (b : UpdateNoteBody) : UpdateNoteBody :=
  {| ub_created := ub_created b; ub_updated := ub_updated b;
     ub_text := ub_text b; ub_author := ub_author b; ub_in_trash := f |}.

Definition null_to_absent {A} (f : field A) : field A :=
  match f with
  | Null => Absent
  | _ => f
  end.

Definition nulls_dropped (b : UpdateNoteBody) : UpdateNoteBody :=
  {| ub_created := null_to_absent (ub_created b);
     ub_updated := null_to_absent (ub_updated b);
     ub_text := null_to_absent (ub_text b);
     ub_author := null_to_absent (ub_author b);
     ub_in_trash := null_to_absent (ub_in_trash b) |}.

Definition listed (r : result) : list document :=
  match r with
  | JSONResponse _ (Docs l) => l
  | _ => []
  end.

Definition active (s : collection) : list document := listed (list_all_notes s).1.
Definition trashed (s : collection) : list document :=
  listed (list_deleted_notes s).1.

Definition id_taken (i : string) (s : collection) : Prop :=
  Exists (λ d, d !! "_id" = Some (JStr i)) s.

Inductive request :=
| POST (factory : string) (b : NoteBody)
| GET_all
| GET_in_trash
| GET (id : string)
| PUT (id : string) (b : UpdateNoteBody)
| PUT_to_trash (id : string) (b : UpdateNoteBody)
| PUT_from_trash (id : string) (b : UpdateNoteBody)
| DELETE (id : string).

Definition serve (m : module_state) (r : request) : DB result :=
  match r with
  | POST factory b => post_note m factory b
  | GET_all => list_all_notes
  | GET_in_trash => list_deleted_notes
  | GET id => show_note id
  | PUT id b => put_note id b
  | PUT_to_trash id b => put_to_trash id b
  | PUT_from_trash id b => put_from_trash id b
  | DELETE id => delete_note id
  end.

(** The collection after serving the requests in turn. *)
Definition serve_all (m : module_state) (rs : list request) (s : collection)
    : collection :=
  foldl (λ s r, (serve m r s).2) s rs.

(** ** Sample data *)

Definition sample_id : string := "61484e8a1c9d440000a1b2c3".

Definition sample_note : document :=
  NoteModel_encode
    {| _id := sample_id;
       created := Some (Datetime "2021-09-20T00:02:03");
       updated := None;
       text := "hi";
       author := "a";
       in_trash := false |}.

Definition sample_store : collection := [sample_note].

Definition empty_update : UpdateNoteModel :=
  {| u_created := None; u_updated := None; u_text := None;
     u_author := None; u_in_trash := None |}.

Definition text_update (t : string) : UpdateNoteModel :=
  {| u_created := None; u_updated := None; u_text := Some t;
     u_author := None; u_in_trash := None |}.

Definition trashed_note : document := <["in_trash" := JBool true]> sample_note.

Definition flag_body (f : field bool) : UpdateNoteBody :=
  {| ub_created := Absent; ub_updated := Absent; ub_text := Absent;
     ub_author := Absent; ub_in_trash := f |}.

Definition all_null : UpdateNoteBody :=
  {| ub_created := Null; ub_updated := Null; ub_text := Null;
     ub_author := Null; ub_in_trash := Null |}.

Definition no_fields : UpdateNoteBody :=
  {| ub_created := Absent; ub_updated := Absent; ub_text := Absent;
     ub_author := Absent; ub_in_trash := Absent |}.

(** A stored state with 1001 active Notes. *)

Fixpoint bits (w n : nat) : string :=
  match w with
  | 0 => ""
  | S w => String (if Nat.odd n then "1" else "0")%char (bits w (Nat.div2 n))
  end.

Definition oid (n : nat) : string := "61484e8a1c9d44" +:+ bits 10 n.

Definition started : module_state :=
  import_app (Datetime "2021-09-20T00:02:03").

Definition hi_body : NoteBody :=
  {| b_id := Absent; b_created := Absent; b_updated := Absent;
     b_text := "hi"; b_author := "a"; b_in_trash := false |}.

Definition note_of (n : nat) : document :=
  NoteModel_encode
    {| _id := oid n; created := NoteModel_created_default started;
       updated := None; text := "hi"; author := "a"; in_trash := false |}.

Definition crowd : collection := note_of <$> seq 0 1001.

(** The requests that store it: 1001 Notes posted to the empty collection. *)
Definition crowd_posts (k : nat) : list request :=
  (λ n, POST (oid n) hi_body) <$> seq 0 k.

(** * Proofs *)

(** ** The driver calls, specified *)

Section driver.
Implicit Types (s : collection) (d q : document) (i : nat).

Lemma run_bind {A B} (m : DB A) (k : A → DB B) s :
  bind m k s = k (m s).1 (m s).2.
Proof. unfold bind. by destruct (m s). Qed.

Lemma matches_by_id id d : matches (by_id id) d ↔ d !! "_id" = Some (JStr id).
Proof. unfold matches, by_id. apply map_singleton_subseteq_l. Qed.

Lemma matches_by_in_trash b d :
  matches (by_in_trash b) d ↔ d !! "in_trash" = Some (JBool b).
Proof. unfold matches, by_in_trash. apply map_singleton_subseteq_l. Qed.

(** Nobody has the id: [find_one] gives [None], and conversely. *)
Lemma find_none_iff q s :
  list_find (matches q) s = None ↔ ∀ d, d ∈ s → ¬ matches q d.
Proof. rewrite list_find_None, Forall_forall. done. Qed.

Lemma find_some_elem q s i d :
  list_find (matches q) s = Some (i, d) → s !! i = Some d ∧ matches q d.
Proof. intros H. apply list_find_Some in H as (? & ? & _). done. Qed.

(** Replacing the first match by a document that still matches keeps it
    the first match. *)
Lemma find_insert_same q s i d d' :
  list_find (matches q) s = Some (i, d) → matches q d' →
  list_find (matches q) (<[i := d']> s) = Some (i, d').
Proof.
  intros H Hm. apply list_find_Some in H as (Hi & _ & Hbefore).
  apply list_find_Some. split_and!.
  - apply list_lookup_insert_eq. by eapply lookup_lt_Some.
  - done.
  - intros j y Hj Hlt. rewrite list_lookup_insert_ne in Hj by lia. eauto.
Qed.

(** [$set] of one field is an insertion. *)
Lemma apply_set_one k v d : apply_set [(k, v)] d = <[k := v]> d.
Proof.
  unfold apply_set. simpl. rewrite insert_empty.
  symmetry. apply insert_union_singleton_l.
Qed.

Lemma apply_set_lookup fields d k :
  apply_set fields d !! k =
  match (list_to_map fields : document) !! k with
  | Some v => Some v
  | None => d !! k
  end.
Proof.
  unfold apply_set. rewrite lookup_union.
  destruct (list_to_map fields !! k), (d !! k); done.
Qed.

Lemma apply_set_keeps fields d k :
  k ∉ fields.*1 → apply_set fields d !! k = d !! k.
Proof.
  intros H. rewrite apply_set_lookup.
  by rewrite (proj1 (not_elem_of_list_to_map fields k) H).
Qed.

End driver.

Lemma no_such_id_iff id (s : collection) :
  list_find (matches (by_id id)) s = None
  ↔ ∀ d, d ∈ s → d !! "_id" ≠ Some (JStr id).
Proof.
  rewrite find_none_iff. by setoid_rewrite matches_by_id.
Qed.

(** ** The handlers, specified *)

Section handlers.
Implicit Types (s : collection) (d : document) (i : nat) (id : string).

Lemma find_one_run q s :
  find_one q s = (snd <$> list_find (matches q) s, s).
Proof. done. Qed.

Lemma show_note_run id s :
  show_note id s =
  match list_find (matches (by_id id)) s with
  | Some (_, d) => (JSONResponse 200 (Doc d), s)
  | None => (not_found id, s)
  end.
Proof.
  unfold show_note. rewrite run_bind, find_one_run. simpl.
  by destruct (list_find _ s) as [[i d]|].
Qed.

(** The five keys an update can carry; [_id] is not one of them. *)
Lemma sparse_keys note :
  (sparse note).*1 ⊆ ["created"; "updated"; "text"; "author"; "in_trash"].
Proof.
  destruct note as [[c|] [u|] [t|] [a|] [b|]]; vm_compute; set_solver.
Qed.

Lemma sparse_no_id note : "_id" ∉ (sparse note).*1.
Proof.
  intros H. apply sparse_keys in H. set_solver.
Qed.

Lemma apply_set_nil d : apply_set [] d = d.
Proof. unfold apply_set. simpl. apply (left_id_L ∅ (∪)). Qed.

(** What [update_note] does, in one equation: the first document with the
    id gets the sparse fields and is returned; with no such document
    nothing is written and the call fails. *)
Lemma update_note_run id note s :
  update_note id note s =
  match list_find (matches (by_id id)) s with
  | Some (i, d) =>
      (JSONResponse 200 (Doc (apply_set (sparse note) d)),
       <[i := apply_set (sparse note) d]> s)
  | None => (not_found id, s)
  end.
Proof.
  unfold update_note. case_bool_decide as Hlen.
  - rewrite run_bind. unfold update_one.
    destruct (list_find (matches (by_id id)) s) as [[i d]|] eqn:Hfind.
    + assert (Hkeep : matches (by_id id) (apply_set (sparse note) d)).
      { apply matches_by_id. rewrite apply_set_keeps by apply sparse_no_id.
        apply matches_by_id. by eapply find_some_elem. }
      pose proof (find_insert_same _ _ _ _ _ Hfind Hkeep) as Hfind'.
      cbn [fst snd modified_count].
      destruct (decide (apply_set (sparse note) d = d)) as [Heq|Hne].
      * rewrite (bool_decide_eq_true_2 _ Heq). simpl.
        rewrite Heq, list_insert_id by (by eapply find_some_elem).
        rewrite run_bind, find_one_run, Hfind. done.
      * rewrite (bool_decide_eq_false_2 _ Hne). simpl.
        rewrite run_bind, find_one_run, Hfind'. done.
    + simpl. rewrite run_bind, find_one_run, Hfind. done.
  - assert (sparse note = []) as ->.
    { destruct (sparse note); [done | simpl in Hlen; lia]. }
    rewrite run_bind, find_one_run.
    destruct (list_find (matches (by_id id)) s) as [[i d]|] eqn:Hfind; [|done].
    simpl. rewrite apply_set_nil.
    rewrite list_insert_id by (by eapply find_some_elem). done.
Qed.

Lemma getitem_in_trash note :
  getitem (UpdateNoteModel_dict note) "in_trash"
  = Some (opt_val PBool (u_in_trash note)).
Proof. reflexivity. Qed.

Lemma py_not_flag flag : py_not (opt_val PBool flag) = guard_passes flag.
Proof. by destruct flag as [[]|]. Qed.

Lemma set_trash_run flag id note s :
  set_trash flag id note s =
  if guard_passes (u_in_trash note) then
    match list_find (matches (by_id id)) s with
    | Some (i, d) =>
        (JSONResponse 200 (Doc (<["in_trash" := JBool flag]> d)),
         <[i := <["in_trash" := JBool flag]> d]> s)
    | None => (not_found id, s)
    end
  else (not_found id, s).
Proof.
  unfold set_trash. rewrite getitem_in_trash, py_not_flag.
  destruct (guard_passes (u_in_trash note)); [|done].
  rewrite run_bind. unfold update_one.
  destruct (list_find (matches (by_id id)) s) as [[i d]|] eqn:Hfind.
  - cbn [fst snd]. rewrite apply_set_one.
    assert (Hkeep : matches (by_id id) (<["in_trash" := JBool flag]> d)).
    { apply matches_by_id. rewrite lookup_insert_ne by done.
      apply matches_by_id. by eapply find_some_elem. }
    rewrite run_bind, find_one_run.
    by rewrite (find_insert_same _ _ _ _ _ Hfind Hkeep).
  - cbn [fst snd]. by rewrite run_bind, find_one_run, Hfind.
Qed.

Lemma delete_note_run id s :
  delete_note id s =
  match list_find (matches (by_id id)) s with
  | Some (i, _) => (JSONResponse 204 NoContent, delete i s)
  | None => (not_found id, s)
  end.
Proof.
  unfold delete_note, delete_one. rewrite run_bind.
  by destruct (list_find (matches (by_id id)) s) as [[i d]|].
Qed.

(** With unique ids, removing the document at [i] removes its id. *)
Lemma delete_removes_id s i d x :
  unique_ids s → s !! i = Some d → doc_id d = x →
  ∀ d', d' ∈ delete i s → doc_id d' ≠ x.
Proof.
  intros Hnd Hi Hx d' Hin Hx'.
  apply list_elem_of_lookup in Hin as [j Hj].
  assert (∃ j', j' ≠ i ∧ s !! j' = Some d') as (j' & Hne & Hj').
  { destruct (decide (j < i)).
    - exists j. split; [lia|]. by rewrite list_lookup_delete_lt in Hj.
    - exists (S j). split; [lia|]. by rewrite list_lookup_delete_ge in Hj by lia. }
  apply Hne. eapply (NoDup_lookup _ _ _ x Hnd).
  - by rewrite list_lookup_fmap, Hj'; simpl; rewrite Hx'.
  - by rewrite list_lookup_fmap, Hi; simpl; rewrite Hx.
Qed.

End handlers.

(** ** Create, specified *)

Lemma NoteModel_encode_id note : NoteModel_encode note !! "_id" = Some (JStr (_id note)).
Proof. reflexivity. Qed.

Lemma NoteModel_encode_created note :
  NoteModel_encode note !! "created"
  = Some (from_option (λ t, JStr (isoformat t)) JNull (created note)).
Proof. by destruct note as [i [c|] u t a b]. Qed.

Lemma NoteModel_encode_is_note note : is_note (NoteModel_encode note) = true.
Proof. by destruct note as [i [c|] [u|] t a b]. Qed.

(** With a free id the encoded Note is appended and returned; with a taken
    one the driver's [DuplicateKeyError] goes through unhandled. *)
Lemma create_note_run note (s : collection) :
  create_note note s =
  if bool_decide (id_taken (_id note) s)
  then (Unhandled "DuplicateKeyError", s)
  else (JSONResponse 201 (Doc (NoteModel_encode note)),
        s ++ [NoteModel_encode note]).
Proof.
  unfold create_note, id_taken. rewrite run_bind. unfold insert_one.
  rewrite NoteModel_encode_id.
  case_bool_decide as Htaken; [done|]. cbn [fst snd].
  rewrite run_bind, find_one_run.
  change ({[ "_id" := JStr (_id note) ]} : document) with (by_id (_id note)).
  assert (list_find (matches (by_id (_id note))) s = None) as Hnone.
  { apply no_such_id_iff. intros d Hd Hid. apply Htaken, Exists_exists. eauto. }
  rewrite (list_find_app_r _ _ _ Hnone). simpl.
  rewrite decide_True by (by apply matches_by_id, NoteModel_encode_id).
  done.
Qed.

(** ** Update *)

Lemma sparse_created note :
  (list_to_map (sparse note) : document) !! "created"
  = (λ t, JStr (isoformat t)) <$> u_created note.
Proof. by destruct note as [[c|] [u|] [t|] [a|] [b|]]. Qed.

Lemma sparse_updated note :
  (list_to_map (sparse note) : document) !! "updated"
  = (λ t, JStr (isoformat t)) <$> u_updated note.
Proof. by destruct note as [[c|] [u|] [t|] [a|] [b|]]. Qed.

Lemma sparse_text note :
  (list_to_map (sparse note) : document) !! "text" = JStr <$> u_text note.
Proof. by destruct note as [[c|] [u|] [t|] [a|] [b|]]. Qed.

Lemma sparse_author note :
  (list_to_map (sparse note) : document) !! "author" = JStr <$> u_author note.
Proof. by destruct note as [[c|] [u|] [t|] [a|] [b|]]. Qed.

Lemma sparse_in_trash note :
  (list_to_map (sparse note) : document) !! "in_trash"
  = JBool <$> u_in_trash note.
Proof. by destruct note as [[c|] [u|] [t|] [a|] [b|]]. Qed.

Lemma sparse_nil_iff note : sparse note = [] ↔ note = empty_update.
Proof.
  split; [|by intros ->].
  by destruct note as [[c|] [u|] [t|] [a|] [b|]].
Qed.

(** C1: an update with at least one field applies the write; when the write
    reports no modified document the stored collection is as before and the
    answer is the re-fetched document with status 200, or NotFound (404) when
    the re-fetch finds none; the update fails with NotFound exactly when no
    document has the id, and answers 200 with a document otherwise. *)
Theorem update_nonempty_not_found_iff id note (s : collection) :
  1 ≤ length (sparse note) →
  (update_note id note s).2 = (update_one (by_id id) (sparse note) s).2
  ∧ (modified_count (update_one (by_id id) (sparse note) s).1 = 0 →
     update_note id note s =
     (match (find_one (by_id id) s).1 with
      | Some d => JSONResponse 200 (Doc d)
      | None => not_found id
      end, s))
  ∧ ((update_note id note s).1 = not_found id
     ↔ ∀ d, d ∈ s → d !! "_id" ≠ Some (JStr id))
  ∧ ((∃ d, d ∈ s ∧ d !! "_id" = Some (JStr id))
     → ∃ d', (update_note id note s).1 = JSONResponse 200 (Doc d')).
Proof.
  intros _. rewrite update_note_run, find_one_run, <- no_such_id_iff.
  unfold update_one.
  destruct (list_find (matches (by_id id)) s) as [[i d]|] eqn:Hfind; simpl.
  - split_and!; [done| |done|eauto].
    case_bool_decide as Heq; [intros _|done].
    rewrite Heq, list_insert_id by (by eapply find_some_elem). done.
  - split_and!; [done..|].
    intros (d & Hin & Hid).
    by destruct (proj1 (no_such_id_iff id s) Hfind d).
Qed.

Lemma update_nonempty_not_found_iff_witness :
  1 ≤ length (sparse (text_update "x"))
  ∧ ((update_note sample_id (text_update "x") sample_store).1
       = not_found sample_id
     ↔ ∀ d, d ∈ sample_store → d !! "_id" ≠ Some (JStr sample_id)).
Proof.
  split; [vm_compute; lia|].
  apply (update_nonempty_not_found_iff sample_id (text_update "x") sample_store).
  vm_compute; lia.
Defined.

(** C4: an update whose sparse field set is empty, on an id that a stored
    Note has, writes nothing and answers 200 with that Note as stored; on
    any collection it does what fetching the id does. *)
Theorem update_empty_returns_current id note (s : collection) d :
  sparse note = [] →
  (find_one (by_id id) s).1 = Some d →
  update_note id note s = (JSONResponse 200 (Doc d), s)
  ∧ ∀ s' : collection, update_note id note s' = show_note id s'.
Proof.
  intros Hnil Hfound.
  assert (Hshow : ∀ s' : collection, update_note id note s' = show_note id s').
  { intros s'. rewrite update_note_run, show_note_run, Hnil.
    destruct (list_find (matches (by_id id)) s') as [[i e]|] eqn:Hfind;
      [|done].
    rewrite apply_set_nil.
    by rewrite list_insert_id by (by eapply find_some_elem). }
  split; [|done]. rewrite Hshow, show_note_run.
  rewrite find_one_run in Hfound. simpl in Hfound.
  destruct (list_find (matches (by_id id)) s) as [[i e]|]; by simplify_eq/=.
Qed.

Lemma update_empty_returns_current_witness :
  sparse empty_update = []
  ∧ (find_one (by_id sample_id) sample_store).1 = Some sample_note
  ∧ update_note sample_id empty_update sample_store
    = (JSONResponse 200 (Doc sample_note), sample_store).
Proof.
  split_and!; [reflexivity | reflexivity |].
  apply (update_empty_returns_current sample_id empty_update sample_store
           sample_note); reflexivity.
Defined.

(** C5: an update on an existing Note overwrites the fields present in the
    sparse input with the values sent, and leaves every other field of the
    Note, and every other document, as stored. *)
Theorem update_overwrites_only_sent id note (s : collection) i d :
  list_find (matches (by_id id)) s = Some (i, d) →
  ∃ d',
    update_note id note s = (JSONResponse 200 (Doc d'), <[i := d']> s)
    ∧ d' !! "created"
      = from_option (λ t, Some (JStr (isoformat t))) (d !! "created")
          (u_created note)
    ∧ d' !! "updated"
      = from_option (λ t, Some (JStr (isoformat t))) (d !! "updated")
          (u_updated note)
    ∧ d' !! "text" = from_option (λ t, Some (JStr t)) (d !! "text") (u_text note)
    ∧ d' !! "author"
      = from_option (λ a, Some (JStr a)) (d !! "author") (u_author note)
    ∧ d' !! "in_trash"
      = from_option (λ b, Some (JBool b)) (d !! "in_trash") (u_in_trash note)
    ∧ (∀ k, k ∉ ["created"; "updated"; "text"; "author"; "in_trash"] →
            d' !! k = d !! k)
    ∧ (∀ j, j ≠ i → (<[i := d']> s) !! j = s !! j).
Proof.
  intros Hfind. exists (apply_set (sparse note) d).
  rewrite update_note_run, Hfind. split; [done|].
  rewrite !apply_set_lookup.
  rewrite sparse_created, sparse_updated, sparse_text, sparse_author,
    sparse_in_trash.
  split_and!.
  - by destruct (u_created note).
  - by destruct (u_updated note).
  - by destruct (u_text note).
  - by destruct (u_author note).
  - by destruct (u_in_trash note).
  - intros k Hk. apply apply_set_keeps. intros Hin.
    apply Hk. by apply (sparse_keys note).
  - intros j Hj. by apply list_lookup_insert_ne.
Qed.

Lemma update_overwrites_only_sent_witness :
  list_find (matches (by_id sample_id)) sample_store = Some (0, sample_note)
  ∧ ∃ d',
      update_note sample_id (text_update "x") sample_store
      = (JSONResponse 200 (Doc d'), [d'])
      ∧ d' !! "text" = Some (JStr "x")
      ∧ d' !! "author" = Some (JStr "a").
Proof.
  split; [reflexivity|].
  destruct (update_overwrites_only_sent sample_id (text_update "x")
              sample_store 0 sample_note eq_refl)
    as (d' & Hrun & _ & _ & Htext & Hauthor & _).
  exists d'. split_and!; [exact Hrun | exact Htext | exact Hauthor].
Defined.

(** ** Trash and restore *)

(** C2: moving to trash fails with NotFound, writing nothing, when the body
    says [in_trash: true]; otherwise the stored [in_trash] of the Note with
    the id becomes true and that updated Note is returned with status 200,
    and the call fails with NotFound when no document has the id. *)
Theorem move_to_trash_spec id note (s : collection) :
  match u_in_trash note with
  | Some true => remove_note id note s = (not_found id, s)
  | _ =>
      match list_find (matches (by_id id)) s with
      | Some (i, d) =>
          remove_note id note s =
          (JSONResponse 200 (Doc (<["in_trash" := JBool true]> d)),
           <[i := <["in_trash" := JBool true]> d]> s)
      | None => remove_note id note s = (not_found id, s)
      end
  end.
Proof.
  unfold remove_note. rewrite set_trash_run.
  destruct (u_in_trash note) as [[]|]; simpl; try done;
    by destruct (list_find (matches (by_id id)) s) as [[i d]|].
Qed.

(** C3: restoring from trash fails with NotFound, writing nothing, when the
    body says [in_trash: true]; otherwise the stored [in_trash] of the Note
    with the id becomes false and that updated Note is returned with status
    200, and the call fails with NotFound when no document has the id. *)
Theorem restore_from_trash_spec id note (s : collection) :
  match u_in_trash note with
  | Some true => move_note id note s = (not_found id, s)
  | _ =>
      match list_find (matches (by_id id)) s with
      | Some (i, d) =>
          move_note id note s =
          (JSONResponse 200 (Doc (<["in_trash" := JBool false]> d)),
           <[i := <["in_trash" := JBool false]> d]> s)
      | None => move_note id note s = (not_found id, s)
      end
  end.
Proof.
  unfold move_note. rewrite set_trash_run.
  destruct (u_in_trash note) as [[]|]; simpl; try done;
    by destruct (list_find (matches (by_id id)) s) as [[i d]|].
Qed.

(** C10: the guard of moving to trash looks at the flag of the body only.
    With a flag that is false, left out or null, the write goes ahead
    whatever is stored; on a Note whose stored [in_trash] is already true
    the call answers 200 with that Note, [in_trash] true, and the collection
    is as before; and a body with the flag left out or null gets the answer
    of the same body with [in_trash: false]. *)
Theorem move_to_trash_reads_body_flag id b (s : collection) :
  ub_in_trash b ≠ Given true →
  (put_to_trash id b s).2
    = (update_one (by_id id) [("in_trash", JBool true)] s).2
  ∧ put_to_trash id b s = put_to_trash id (with_in_trash (Given false) b) s
  ∧ ∀ i d,
      list_find (matches (by_id id)) s = Some (i, d) →
      d !! "in_trash" = Some (JBool true) →
      put_to_trash id b s = (JSONResponse 200 (Doc d), s).
Proof.
  intros Hflag. unfold put_to_trash, remove_note. rewrite !set_trash_run.
  assert (guard_passes (u_in_trash (UpdateNoteModel_validate b)) = true) as ->.
  { simpl. by destruct (ub_in_trash b) as [| |[]]. }
  unfold update_one. simpl.
  destruct (list_find (matches (by_id id)) s) as [[i d]|] eqn:Hfind.
  - rewrite apply_set_one. split_and!; [done..|].
    intros i' d' [= <- <-] Htrash.
    rewrite (insert_id d) by done.
    by rewrite list_insert_id by (by eapply find_some_elem).
  - split_and!; done.
Qed.

Lemma move_to_trash_reads_body_flag_witness :
  ub_in_trash (flag_body Null) ≠ Given true
  ∧ put_to_trash sample_id (flag_body Null) [trashed_note]
    = (JSONResponse 200 (Doc trashed_note), [trashed_note]).
Proof.
  assert (Hflag : ub_in_trash (flag_body Null) ≠ Given true) by (simpl; congruence).
  split; [exact Hflag|].
  apply (move_to_trash_reads_body_flag sample_id (flag_body Null)
           [trashed_note] Hflag) with (i := 0); reflexivity.
Defined.

(** ** Delete *)

(** C7: a delete succeeds with status 204 exactly when one document was
    deleted and fails with NotFound, the collection as before, otherwise;
    after a delete that succeeded the collection is one document shorter, no
    document has the id, and fetching the id fails with NotFound. *)
Theorem delete_then_get_not_found id (s : collection) :
  unique_ids s →
  (delete_note id s).2 = (delete_one (by_id id) s).2
  ∧ ((delete_note id s).1 = JSONResponse 204 NoContent
     ↔ deleted_count (delete_one (by_id id) s).1 = 1)
  ∧ (deleted_count (delete_one (by_id id) s).1 ≠ 1 →
     delete_note id s = (not_found id, s))
  ∧ ((delete_note id s).1 = JSONResponse 204 NoContent →
     length s = S (length (delete_note id s).2)
     ∧ (∀ d, d ∈ (delete_note id s).2 → d !! "_id" ≠ Some (JStr id))
     ∧ show_note id (delete_note id s).2
       = (not_found id, (delete_note id s).2)).
Proof.
  intros Huniq. rewrite delete_note_run. unfold delete_one.
  destruct (list_find (matches (by_id id)) s) as [[i d]|] eqn:Hfind; simpl.
  - destruct (find_some_elem _ _ _ _ Hfind) as [Hi Hid].
    apply matches_by_id in Hid.
    assert (Hgone : ∀ d', d' ∈ delete i s → d' !! "_id" ≠ Some (JStr id)).
    { intros d' Hin. by apply (delete_removes_id s i d _ Huniq Hi Hid). }
    split_and!; [done|done|done|]. intros _. split_and!.
    + rewrite length_delete by eauto.
      apply lookup_lt_Some in Hi. lia.
    + done.
    + rewrite show_note_run.
      by rewrite (proj2 (no_such_id_iff id (delete i s)) Hgone).
  - split_and!; [done| |done|done]. split; [done|lia].
Qed.

Lemma delete_then_get_not_found_witness :
  unique_ids sample_store
  ∧ (delete_note sample_id sample_store).1 = JSONResponse 204 NoContent
  ∧ show_note sample_id (delete_note sample_id sample_store).2
    = (not_found sample_id, []).
Proof.
  assert (Huniq : unique_ids sample_store).
  { unfold unique_ids. simpl. apply NoDup_singleton. }
  split_and!; [exact Huniq | reflexivity |].
  apply (delete_then_get_not_found sample_id sample_store Huniq).
  reflexivity.
Defined.

(** ** Null fields of an update *)

Lemma optional_null_to_absent {A} (f : field A) :
  optional None (null_to_absent f) = optional None f.
Proof. by destruct f. Qed.

Lemma validate_nulls_dropped b :
  UpdateNoteModel_validate (nulls_dropped b) = UpdateNoteModel_validate b.
Proof.
  unfold UpdateNoteModel_validate, nulls_dropped. simpl.
  by rewrite !optional_null_to_absent.
Qed.

Lemma sparse_no_null note : Forall (λ kv, kv.2 ≠ JNull) (sparse note).
Proof.
  destruct note as [[c|] [u|] [t|] [a|] [b|]]; repeat constructor; done.
Qed.

Lemma apply_set_null fields (d : document) k :
  Forall (λ kv, kv.2 ≠ JNull) fields →
  apply_set fields d !! k = Some JNull → d !! k = Some JNull.
Proof.
  intros Hnn. rewrite apply_set_lookup.
  destruct (list_to_map fields !! k) as [v|] eqn:Hk; [|done].
  intros [= ->]. apply elem_of_list_to_map_2 in Hk.
  rewrite Forall_forall in Hnn. by destruct (Hnn _ Hk).
Qed.

(** C9: in an update a field sent as null is dropped before the write: the
    call answers and stores what it would with the field left out; nothing
    null is among the fields written, so a field (of any document, at any
    key) that is null after the call was null before it; and the body with
    all five fields null behaves as the body with no field, and writes
    nothing. *)
Theorem update_null_same_as_absent id b (s : collection) :
  put_note id b s = put_note id (nulls_dropped b) s
  ∧ Forall (λ kv, kv.2 ≠ JNull) (sparse (UpdateNoteModel_validate b))
  ∧ (∀ j (d' : document) k,
       (put_note id b s).2 !! j = Some d' → d' !! k = Some JNull →
       ∃ d : document, s !! j = Some d ∧ d !! k = Some JNull)
  ∧ put_note id all_null s = put_note id no_fields s
  ∧ (put_note id all_null s).2 = s.
Proof.
  unfold put_note. rewrite validate_nulls_dropped.
  split_and!; [done | apply sparse_no_null | | done |].
  - intros j d' k. rewrite update_note_run.
    destruct (list_find (matches (by_id id)) s) as [[i d]|] eqn:Hfind;
      simpl; [|eauto].
    destruct (find_some_elem _ _ _ _ Hfind) as [Hi _].
    destruct (decide (j = i)) as [->|Hne].
    + rewrite list_lookup_insert_eq by (by eapply lookup_lt_Some).
      intros [= <-] Hnull. exists d. split; [done|].
      eapply apply_set_null; [apply sparse_no_null | done].
    + rewrite list_lookup_insert_ne by done. eauto.
  - rewrite update_note_run.
    destruct (list_find (matches (by_id id)) s) as [[i d]|] eqn:Hfind;
      simpl; [|done].
    change (sparse (UpdateNoteModel_validate all_null)) with (@nil (string * json)).
    rewrite apply_set_nil. apply list_insert_id. by eapply find_some_elem.
Qed.

(** ** The two lists *)

Section lists.
Implicit Types (s l : list document) (d : document).

Lemma active_eq s : active s = take 1000 (filter (matches (by_in_trash false)) s).
Proof. done. Qed.

Lemma trashed_eq s : trashed s = take 1000 (filter (matches (by_in_trash true)) s).
Proof. done. Qed.

Lemma elem_of_ids i l : i ∈ ids l ↔ ∃ d, d ∈ l ∧ id_str d = Some i.
Proof. unfold ids. rewrite elem_of_list_to_set, list_elem_of_omap. done. Qed.

Lemma id_str_doc_id d i : id_str d = Some i → doc_id d = Some (JStr i).
Proof.
  unfold id_str, doc_id. destruct (d !! "_id") as [[| |?]|]; naive_solver.
Qed.

(** Two stored documents with one id are one document. *)
Lemma unique_ids_inj s d1 d2 :
  unique_ids s → d1 ∈ s → d2 ∈ s → doc_id d1 = doc_id d2 → d1 = d2.
Proof.
  intros Hnd [j1 H1]%list_elem_of_lookup [j2 H2]%list_elem_of_lookup Heq.
  assert (j1 = j2) as ->; [|congruence].
  eapply (NoDup_lookup _ _ _ (doc_id d1) Hnd).
  - by rewrite list_lookup_fmap, H1.
  - by rewrite list_lookup_fmap, H2, Heq.
Qed.

Lemma elem_of_listing b n s d :
  d ∈ take n (filter (matches (by_in_trash b)) s) →
  d ∈ s ∧ d !! "in_trash" = Some (JBool b).
Proof.
  intros Hin%subseteq_take%list_elem_of_filter.
  destruct Hin as [Hm Hin]. split; [done|]. by apply matches_by_in_trash.
Qed.

Lemma is_note_in_trash d : is_note d = true → ∃ b, d !! "in_trash" = Some (JBool b).
Proof.
  unfold is_note. rewrite !andb_true_iff. intros (_ & H).
  destruct (d !! "in_trash") as [[|b|]|]; try done. by exists b.
Qed.

End lists.

(** C6, as the code has it: in a stored state with unique ids where every
    document is a Note, the list of active Notes answers 200 with Notes whose
    [in_trash] is false, the list of trashed Notes with Notes whose
    [in_trash] is true, each at most 1000 long; no id is in both; every id
    listed is stored; and every stored id is in one of the two lists when
    neither kind has more than 1000 stored Notes. *)
Theorem lists_partition_within_cap (s : collection) :
  wf_store s →
  list_all_notes s = (JSONResponse 200 (Docs (active s)), s)
  ∧ list_deleted_notes s = (JSONResponse 200 (Docs (trashed s)), s)
  ∧ Forall (λ d, d !! "in_trash" = Some (JBool false)) (active s)
  ∧ Forall (λ d, d !! "in_trash" = Some (JBool true)) (trashed s)
  ∧ length (active s) ≤ 1000
  ∧ length (trashed s) ≤ 1000
  ∧ ids (active s) ∩ ids (trashed s) = ∅
  ∧ ids (active s) ∪ ids (trashed s) ⊆ ids s
  ∧ (length (filter (matches (by_in_trash false)) s) ≤ 1000 →
     length (filter (matches (by_in_trash true)) s) ≤ 1000 →
     ids (active s) ∪ ids (trashed s) = ids s).
Proof.
  intros [Huniq Hnotes]. rewrite active_eq, trashed_eq.
  split_and!; try done.
  - apply Forall_forall. intros d Hd. by apply elem_of_listing in Hd as [_ ?].
  - apply Forall_forall. intros d Hd. by apply elem_of_listing in Hd as [_ ?].
  - rewrite length_take. lia.
  - rewrite length_take. lia.
  - apply set_eq. intros i. rewrite elem_of_intersection, !elem_of_ids.
    split; [|set_solver].
    intros [(d1 & Hd1 & Hi1) (d2 & Hd2 & Hi2)].
    apply elem_of_listing in Hd1 as [Hs1 Hf], Hd2 as [Hs2 Ht].
    assert (d1 = d2) as ->.
    { apply (unique_ids_inj s); [done..|].
      by rewrite (id_str_doc_id _ _ Hi1), (id_str_doc_id _ _ Hi2). }
    congruence.
  - intros i. rewrite elem_of_union, !elem_of_ids.
    intros [(d & Hd & Hi)|(d & Hd & Hi)]; apply elem_of_listing in Hd as [? _];
      eauto.
  - intros Hfew_active Hfew_trashed. rewrite (take_ge _ _ Hfew_active), (take_ge _ _ Hfew_trashed).
    apply set_eq. intros i. rewrite elem_of_union, !elem_of_ids. split.
    + intros [(d & Hd & Hi)|(d & Hd & Hi)];
        apply list_elem_of_filter in Hd as [_ ?]; eauto.
    + intros (d & Hd & Hi).
      rewrite Forall_forall in Hnotes.
      destruct (is_note_in_trash d (Hnotes d Hd)) as [[] Hb];
        [right | left]; exists d; (split; [|done]);
        apply list_elem_of_filter; (split; [|done]);
        by apply matches_by_in_trash.
Qed.

Lemma lists_partition_within_cap_witness :
  wf_store sample_store
  ∧ ids (active sample_store) ∪ ids (trashed sample_store) = ids sample_store.
Proof.
  assert (Hwf : wf_store sample_store).
  { split; [apply NoDup_singleton | by repeat constructor]. }
  split; [exact Hwf|].
  apply (lists_partition_within_cap sample_store Hwf); vm_compute; lia.
Defined.

Lemma bits_inj w n m : n < 2 ^ w → m < 2 ^ w → bits w n = bits w m → n = m.
Proof.
  revert n m. induction w as [|w IH]; intros n m Hn Hm Heq.
  - simpl in Hn, Hm. lia.
  - rewrite Nat.pow_succ_r' in Hn, Hm.
    pose proof (Nat.div2_odd n) as En. pose proof (Nat.div2_odd m) as Em.
    simpl in Heq. injection Heq as Hbit Hrest.
    apply IH in Hrest; [|lia..].
    assert (Nat.odd n = Nat.odd m) by (by destruct (Nat.odd n), (Nat.odd m)).
    congruence.
Qed.

Lemma append_cancel (p a b : string) : p +:+ a = p +:+ b → a = b.
Proof.
  induction p as [|c p IH]; simpl; [done|].
  intros Heq. apply IH. by injection Heq.
Qed.

Lemma oid_inj n m : n < 1024 → m < 1024 → oid n = oid m → n = m.
Proof.
  intros Hn Hm Heq. apply (bits_inj 10 n m Hn Hm).
  by apply append_cancel in Heq.
Qed.

Lemma note_of_id n : doc_id (note_of n) = Some (JStr (oid n)).
Proof. reflexivity. Qed.

Lemma note_of_id_str n : id_str (note_of n) = Some (oid n).
Proof. reflexivity. Qed.

Lemma crowd_wf : wf_store crowd.
Proof.
  split.
  - unfold unique_ids, crowd. rewrite <- list_fmap_compose.
    apply NoDup_fmap_2_strong; [|apply NoDup_seq].
    intros n m Hn%elem_of_seq Hm%elem_of_seq Heq.
    unfold compose in Heq. rewrite !note_of_id in Heq.
    apply oid_inj; [lia..|]. congruence.
  - apply Forall_fmap, Forall_forall. by intros n _.
Qed.

Lemma filter_all {A} (P : A → Prop) `{!∀ x, Decision (P x)} (l : list A) :
  Forall P l → filter P l = l.
Proof.
  induction 1 as [|x l Hx _ IH]; [done|].
  by rewrite filter_cons_True, IH.
Qed.

Lemma crowd_active : active crowd = note_of <$> seq 0 1000.
Proof.
  rewrite active_eq. unfold crowd. rewrite filter_all.
  - by rewrite <- fmap_take, take_seq.
  - apply Forall_fmap, Forall_forall. intros n _.
    by apply matches_by_in_trash.
Qed.

Lemma crowd_trashed d : d ∉ trashed crowd.
Proof.
  rewrite trashed_eq. intros [Hin Htrash]%elem_of_listing.
  apply list_elem_of_fmap in Hin as (n & -> & _). done.
Qed.

Lemma differ_by_elem (X Y : gset string) x : x ∉ X → x ∈ Y → X ≠ Y.
Proof. intros Hout Hin Heq. apply Hout. by rewrite Heq. Qed.

Lemma crowd_posts_run k :
  k ≤ 1001 → serve_all started (crowd_posts k) [] = note_of <$> seq 0 k.
Proof.
  induction k as [|k IH]; intros Hk; [done|].
  unfold crowd_posts, serve_all in *.
  rewrite seq_S, !fmap_app, foldl_app, IH by lia. simpl.
  unfold post_note. simpl. rewrite create_note_run. simpl.
  rewrite bool_decide_eq_false_2; [done|].
  intros (d & Hd & Hid)%Exists_exists.
  apply list_elem_of_fmap in Hd as (n & -> & Hn%elem_of_seq).
  change (doc_id (note_of n) = Some (JStr (oid k))) in Hid.
  rewrite note_of_id in Hid.
  assert (n = k) by (apply oid_inj; [lia..|]; congruence).
  lia.
Qed.

(** C6, as stated, fails: with 1001 active Notes stored, the Note with the
    last id is in neither list, so the union of the two lists is not the
    stored set. *)
Lemma lists_union_misses_beyond_cap :
  serve_all started (crowd_posts 1001) [] = crowd
  ∧ wf_store crowd
  ∧ oid 1000 ∈ ids crowd
  ∧ (oid 1000 ∉ ids (active crowd) ∪ ids (trashed crowd))
  ∧ ids (active crowd) ∪ ids (trashed crowd) ≠ ids crowd.
Proof.
  assert (Hin : oid 1000 ∈ ids crowd).
  { apply elem_of_ids. exists (note_of 1000). split; [|apply note_of_id_str].
    apply list_elem_of_fmap. exists 1000. split; [reflexivity|].
    apply elem_of_seq. lia. }
  assert (Hout : oid 1000 ∉ ids (active crowd) ∪ ids (trashed crowd)).
  { intros [Ha|Ht]%elem_of_union.
    - apply elem_of_ids in Ha as (d & Hd & Hi). rewrite crowd_active in Hd.
      apply list_elem_of_fmap in Hd as (n & -> & Hn%elem_of_seq).
      rewrite note_of_id_str in Hi.
      assert (n = 1000) by (apply oid_inj; [lia..|]; congruence).
      lia.
    - apply elem_of_ids in Ht as (d & Hd & _). exact (crowd_trashed d Hd). }
  split_and!;
    [apply crowd_posts_run; lia | apply crowd_wf | exact Hin | exact Hout |].
  exact (differ_by_elem _ _ _ Hout Hin).
Qed.

(** ** Create: the default of [created] *)

(** C8, what the code does: a Note posted without [created] and without an
    id is validated to a model whose [created] is the clock value read when
    the module was imported, and that is the value stored and returned;
    nothing of the request enters it. *)
Theorem created_default_fixed_at_import utcnow factory upd txt auth trash :
  ∃ d,
    post_note (import_app utcnow) factory
      {| b_id := Absent; b_created := Absent; b_updated := upd;
         b_text := txt; b_author := auth; b_in_trash := trash |} []
    = (JSONResponse 201 (Doc d), [d])
    ∧ d !! "created" = Some (JStr (isoformat utcnow)).
Proof.
  eexists. unfold post_note. cbn [NoteModel_validate b_id].
  rewrite create_note_run. case_bool_decide as Htaken.
  - unfold id_taken in Htaken. by apply Exists_nil in Htaken.
  - split; [reflexivity|]. by rewrite NoteModel_encode_created.
Qed.

(** Two Notes posted one after the other by a process imported at
    2021-09-20T00:02:03 both carry that instant as [created]. *)
Example two_posts_one_created :
  let m := import_app (Datetime "2021-09-20T00:02:03") in
  let s1 := (post_note m "61484e8a1c9d440000a1b2c3" hi_body []).2 in
  let s2 := (post_note m "61484f021c9d440000a1b2c4" hi_body s1).2 in
  (λ d : document, d !! "created") <$> s2
  = [Some (JStr "2021-09-20T00:02:03"); Some (JStr "2021-09-20T00:02:03")].
Proof. vm_compute. reflexivity. Qed.

(** ** The routes keep the stored state well formed *)

Section invariant.
Implicit Types (s : collection) (d : document) (i : nat).

Lemma wf_insert s i d d' :
  wf_store s → s !! i = Some d → doc_id d' = doc_id d → is_note d' = true →
  wf_store (<[i := d']> s).
Proof.
  intros [Huniq Hnotes] Hi Hid Hnote. split.
  - unfold unique_ids. rewrite list_fmap_insert, Hid.
    rewrite list_insert_id; [done|]. by rewrite list_lookup_fmap, Hi.
  - by apply Forall_insert.
Qed.

Lemma wf_delete s i : wf_store s → wf_store (delete i s).
Proof.
  intros [Huniq Hnotes]. split; [|by apply Forall_delete].
  unfold unique_ids. rewrite list_fmap_delete.
  eapply sublist_NoDup; [exact Huniq | apply sublist_delete].
Qed.

Lemma wf_snoc s note :
  ¬ id_taken (_id note) s → wf_store s → wf_store (s ++ [NoteModel_encode note]).
Proof.
  intros Hfree [Huniq Hnotes]. split.
  - unfold unique_ids. rewrite fmap_app. apply NoDup_app. split_and!.
    + done.
    + intros x [d [-> Hd]]%list_elem_of_fmap Hx. simpl in Hx.
      apply list_elem_of_singleton in Hx.
      apply Hfree, Exists_exists. exists d. split; [done|].
      by rewrite <- NoteModel_encode_id.
    + apply NoDup_singleton.
  - apply Forall_app. split; [done|].
    apply Forall_singleton, NoteModel_encode_is_note.
Qed.

Lemma is_note_sparse note d :
  is_note d = true → is_note (apply_set (sparse note) d) = true.
Proof.
  unfold is_note. rewrite !andb_true_iff.
  intros (((((H1 & H2) & H3) & H4) & H5) & H6).
  rewrite (apply_set_keeps _ _ "_id") by apply sparse_no_id.
  rewrite !apply_set_lookup, sparse_created, sparse_updated, sparse_text,
    sparse_author, sparse_in_trash.
  split_and!; [done|..].
  - by destruct (u_created note).
  - by destruct (u_updated note).
  - by destruct (u_text note).
  - by destruct (u_author note).
  - by destruct (u_in_trash note).
Qed.

Lemma is_note_flag flag d :
  is_note d = true → is_note (<["in_trash" := JBool flag]> d) = true.
Proof.
  unfold is_note. rewrite lookup_insert_eq, !lookup_insert_ne by done.
  rewrite !andb_true_iff. naive_solver.
Qed.

Lemma serve_wf m r s : wf_store s → wf_store (serve m r s).2.
Proof.
  intros Hwf. destruct r as [factory b| | |id|id b|id b|id b|id]; cbn [serve].
  - unfold post_note.
    destruct (NoteModel_validate m factory b) as [note|]; [|done].
    rewrite create_note_run. case_bool_decide; [done|]. by apply wf_snoc.
  - exact Hwf.
  - exact Hwf.
  - rewrite show_note_run.
    by destruct (list_find (matches (by_id id)) s) as [[i d]|].
  - unfold put_note. rewrite update_note_run.
    destruct (list_find (matches (by_id id)) s) as [[i d]|] eqn:Hfind;
      [|done].
    destruct (find_some_elem _ _ _ _ Hfind) as [Hi _]. simpl.
    apply (wf_insert s i d); [done | done | |].
    + unfold doc_id. apply apply_set_keeps, sparse_no_id.
    + apply is_note_sparse. destruct Hwf as [_ Hnotes].
      rewrite Forall_forall in Hnotes.
      apply Hnotes. by eapply list_elem_of_lookup_2.
  - unfold put_to_trash, remove_note. rewrite set_trash_run.
    destruct (guard_passes _); [|done].
    destruct (list_find (matches (by_id id)) s) as [[i d]|] eqn:Hfind;
      [|done].
    destruct (find_some_elem _ _ _ _ Hfind) as [Hi _]. simpl.
    apply (wf_insert s i d); [done | done | |].
    + unfold doc_id. by rewrite lookup_insert_ne.
    + apply is_note_flag. destruct Hwf as [_ Hnotes].
      rewrite Forall_forall in Hnotes.
      apply Hnotes. by eapply list_elem_of_lookup_2.
  - unfold put_from_trash, move_note. rewrite set_trash_run.
    destruct (guard_passes _); [|done].
    destruct (list_find (matches (by_id id)) s) as [[i d]|] eqn:Hfind;
      [|done].
    destruct (find_some_elem _ _ _ _ Hfind) as [Hi _]. simpl.
    apply (wf_insert s i d); [done | done | |].
    + unfold doc_id. by rewrite lookup_insert_ne.
    + apply is_note_flag. destruct Hwf as [_ Hnotes].
      rewrite Forall_forall in Hnotes.
      apply Hnotes. by eapply list_elem_of_lookup_2.
  - rewrite delete_note_run.
    destruct (list_find (matches (by_id id)) s) as [[i d]|]; [|done].
    by apply wf_delete.
Qed.

(** X12: every state the service reaches from the empty collection, by any
    sequence of requests to its eight routes, has unique ids and holds only
    documents with the fields of a Note at their types. *)
Lemma serve_all_wf m rs : wf_store (serve_all m rs []).
Proof.
  unfold serve_all.
  assert (Hgen : ∀ s, wf_store s → wf_store (foldl (λ s r, (serve m r s).2) s rs)).
  { induction rs as [|r rs IH]; intros s Hs; simpl; [done|].
    by apply IH, serve_wf. }
  apply Hgen. split; [apply NoDup_nil_2 | apply Forall_nil_2].
Qed.

End invariant.

(** ** Beyond the listed claims: reads, frames and compositions *)

Section found.
Context {A : Type} (P : A → Prop) `{!∀ x, Decision (P x)}.

Lemma found_shift (o : option (nat * A)) :
  snd <$> (prod_map S id <$> o) = snd <$> o.
Proof. by destruct o as [[j x]|]. Qed.

(** Replacing, removing or appending an element that does not satisfy [P]
    does not change the first element that does. *)
Lemma found_insert_other (l : list A) i x y :
  l !! i = Some x → ¬ P x → ¬ P y →
  snd <$> list_find P (<[i := y]> l) = snd <$> list_find P l.
Proof.
  revert i. induction l as [|z l IH]; intros [|i] Hi Hx Hy; simplify_eq/=.
  - by rewrite !decide_False by done.
  - destruct (decide (P z)); [done|]. rewrite !found_shift. by apply IH.
Qed.

Lemma found_delete_other (l : list A) i x :
  l !! i = Some x → ¬ P x →
  snd <$> list_find P (delete i l) = snd <$> list_find P l.
Proof.
  revert i. induction l as [|z l IH]; intros [|i] Hi Hx; simplify_eq/=.
  - rewrite decide_False by done. by rewrite found_shift.
  - destruct (decide (P z)); [done|]. rewrite !found_shift. by apply IH.
Qed.

Lemma found_snoc_other (l : list A) y :
  ¬ P y → snd <$> list_find P (l ++ [y]) = snd <$> list_find P l.
Proof.
  intros Hy. induction l as [|z l IH]; simpl.
  - by rewrite decide_False by done.
  - destruct (decide (P z)); [done|]. by rewrite !found_shift.
Qed.

End found.

Lemma show_note_found id (s : collection) :
  show_note id s =
  (from_option (λ d, JSONResponse 200 (Doc d)) (not_found id)
     (snd <$> list_find (matches (by_id id)) s), s).
Proof.
  rewrite show_note_run. by destruct (list_find _ s) as [[i d]|].
Qed.

Lemma other_id_no_match id id' (d : document) :
  id ≠ id' → d !! "_id" = Some (JStr id) → ¬ matches (by_id id') d.
Proof. intros Hne Hid Hm%matches_by_id. congruence. Qed.

Lemma found_other_insert id id' (s : collection) i d d' :
  id ≠ id' → list_find (matches (by_id id)) s = Some (i, d) →
  d' !! "_id" = Some (JStr id) →
  snd <$> list_find (matches (by_id id')) (<[i := d']> s)
  = snd <$> list_find (matches (by_id id')) s.
Proof.
  intros Hne Hfind Hid'. destruct (find_some_elem _ _ _ _ Hfind) as [Hi Hm].
  apply matches_by_id in Hm.
  apply (found_insert_other _ s i d d' Hi); by eapply other_id_no_match.
Qed.

Lemma ids_insert (s : collection) i d d' :
  s !! i = Some d → doc_id d' = doc_id d →
  doc_id <$> <[i := d']> s = doc_id <$> s.
Proof.
  intros Hi Hid. rewrite list_fmap_insert, Hid.
  apply list_insert_id. by rewrite list_lookup_fmap, Hi.
Qed.

Lemma sparse_keeps_id note (d : document) :
  apply_set (sparse note) d !! "_id" = d !! "_id".
Proof. apply apply_set_keeps, sparse_no_id. Qed.

(** X2: fetching a Note never changes the collection; it fails with
    NotFound exactly when no stored document has the id, and otherwise
    answers 200 with a stored document that has the id. *)
Theorem show_note_spec id (s : collection) :
  (show_note id s).2 = s
  ∧ ((show_note id s).1 = not_found id
     ↔ ∀ d, d ∈ s → d !! "_id" ≠ Some (JStr id))
  ∧ ((show_note id s).1 = not_found id
     ∨ ∃ d, (show_note id s).1 = JSONResponse 200 (Doc d)
            ∧ d ∈ s ∧ d !! "_id" = Some (JStr id)).
Proof.
  rewrite show_note_run, <- no_such_id_iff.
  destruct (list_find (matches (by_id id)) s) as [[i d]|] eqn:Hfind; simpl.
  - destruct (find_some_elem _ _ _ _ Hfind) as [Hi Hm].
    apply matches_by_id in Hm.
    split_and!; [done|done|]. right. exists d.
    split_and!; [done| |done]. by eapply list_elem_of_lookup_2.
  - split_and!; [done|done|by left].
Qed.

(** X3: a write addressed to one id does not change what fetching another
    id answers: this holds for update, move to trash, restore, delete, and
    for the creation of a Note with that id. *)
Theorem writes_leave_other_ids id id' (s : collection) :
  id ≠ id' →
  (∀ note, (show_note id' (update_note id note s).2).1 = (show_note id' s).1)
  ∧ (∀ note, (show_note id' (remove_note id note s).2).1 = (show_note id' s).1)
  ∧ (∀ note, (show_note id' (move_note id note s).2).1 = (show_note id' s).1)
  ∧ (show_note id' (delete_note id s).2).1 = (show_note id' s).1
  ∧ (∀ note : NoteModel, _id note = id →
       (show_note id' (create_note note s).2).1 = (show_note id' s).1).
Proof.
  intros Hne.
  assert (Htrash : ∀ flag note,
    (show_note id' (set_trash flag id note s).2).1 = (show_note id' s).1).
  { intros flag note. rewrite set_trash_run.
    destruct (guard_passes _); [|done].
    destruct (list_find (matches (by_id id)) s) as [[i d]|] eqn:Hfind; [|done].
    cbn [snd]. rewrite !show_note_found. cbn [fst]. f_equal.
    apply (found_other_insert id id' s i d); [done..|].
    rewrite lookup_insert_ne by done.
    apply matches_by_id. by eapply find_some_elem. }
  split_and!.
  - intros note. rewrite update_note_run.
    destruct (list_find (matches (by_id id)) s) as [[i d]|] eqn:Hfind; [|done].
    cbn [snd]. rewrite !show_note_found. cbn [fst]. f_equal.
    apply (found_other_insert id id' s i d); [done..|].
    rewrite sparse_keeps_id. apply matches_by_id. by eapply find_some_elem.
  - apply (Htrash true).
  - apply (Htrash false).
  - rewrite delete_note_run.
    destruct (list_find (matches (by_id id)) s) as [[i d]|] eqn:Hfind; [|done].
    destruct (find_some_elem _ _ _ _ Hfind) as [Hi Hm].
    apply matches_by_id in Hm.
    cbn [snd]. rewrite !show_note_found. cbn [fst]. f_equal.
    apply (found_delete_other _ s i d Hi). by eapply other_id_no_match.
  - intros note Hid. rewrite create_note_run.
    case_bool_decide; [done|].
    cbn [snd]. rewrite !show_note_found. cbn [fst]. f_equal.
    apply found_snoc_other. eapply other_id_no_match; [done|].
    by rewrite NoteModel_encode_id, Hid.
Qed.

Lemma writes_leave_other_ids_witness :
  sample_id ≠ "61484f021c9d440000a1b2c4"
  ∧ (show_note "61484f021c9d440000a1b2c4"
       (delete_note sample_id sample_store).2).1
    = (show_note "61484f021c9d440000a1b2c4" sample_store).1.
Proof.
  assert (Hne : sample_id ≠ "61484f021c9d440000a1b2c4") by (by vm_compute).
  split; [exact Hne|].
  destruct (writes_leave_other_ids sample_id "61484f021c9d440000a1b2c4"
              sample_store Hne) as (_ & _ & _ & Hdelete & _).
  exact Hdelete.
Defined.

(** X4: update, move to trash and restore never add or remove a document
    and never change an [_id]: the stored ids, in order, are as before. *)
Theorem put_routes_keep_ids id note (s : collection) :
  doc_id <$> (update_note id note s).2 = doc_id <$> s
  ∧ doc_id <$> (remove_note id note s).2 = doc_id <$> s
  ∧ doc_id <$> (move_note id note s).2 = doc_id <$> s.
Proof.
  assert (Htrash : ∀ flag,
    doc_id <$> (set_trash flag id note s).2 = doc_id <$> s).
  { intros flag. rewrite set_trash_run. destruct (guard_passes _); [|done].
    destruct (list_find (matches (by_id id)) s) as [[i d]|] eqn:Hfind; [|done].
    destruct (find_some_elem _ _ _ _ Hfind) as [Hi _]. cbn [snd].
    apply (ids_insert s i d); [done|].
    unfold doc_id. by rewrite lookup_insert_ne. }
  split_and!; [|apply (Htrash true)|apply (Htrash false)].
  rewrite update_note_run.
  destruct (list_find (matches (by_id id)) s) as [[i d]|] eqn:Hfind; [|done].
  destruct (find_some_elem _ _ _ _ Hfind) as [Hi _]. cbn [snd].
  apply (ids_insert s i d); [done|]. apply sparse_keeps_id.
Qed.

Lemma NoteModel_encode_fields note :
  NoteModel_encode note !! "updated"
  = Some (from_option (λ t, JStr (isoformat t)) JNull (updated note))
  ∧ NoteModel_encode note !! "text" = Some (JStr (text note))
  ∧ NoteModel_encode note !! "author" = Some (JStr (author note))
  ∧ NoteModel_encode note !! "in_trash" = Some (JBool (in_trash note)).
Proof. by destruct note as [i c [u|] t a b]. Qed.

Lemma free_id_not_found id (s : collection) :
  ¬ id_taken id s → list_find (matches (by_id id)) s = None.
Proof.
  intros Hfree. apply no_such_id_iff. intros d Hd Hid.
  apply Hfree, Exists_exists. eauto.
Qed.

(** X1: a Note posted without an id, when the id drawn for it is free, is
    appended to the collection and returned with status 201; it carries the
    drawn id, the text, author and flag of the body, [updated] and [created]
    as sent (null when sent as null, the class default for a [created] left
    out), and fetching the drawn id afterwards answers 200 with the same
    document. *)
Theorem post_then_get m factory b (s : collection) :
  b_id b = Absent →
  ¬ id_taken factory s →
  ∃ d,
    post_note m factory b s = (JSONResponse 201 (Doc d), s ++ [d])
    ∧ d !! "_id" = Some (JStr factory)
    ∧ d !! "created"
      = Some (from_option (λ t, JStr (isoformat t)) JNull
                (optional (NoteModel_created_default m) (b_created b)))
    ∧ d !! "updated"
      = Some (from_option (λ t, JStr (isoformat t)) JNull
                (optional None (b_updated b)))
    ∧ d !! "text" = Some (JStr (b_text b))
    ∧ d !! "author" = Some (JStr (b_author b))
    ∧ d !! "in_trash" = Some (JBool (b_in_trash b))
    ∧ show_note factory (s ++ [d]) = (JSONResponse 200 (Doc d), s ++ [d]).
Proof.
  intros Hid Hfree. unfold post_note, NoteModel_validate. rewrite Hid.
  rewrite create_note_run. cbn [_id].
  rewrite (bool_decide_eq_false_2 _ Hfree).
  eexists. split; [reflexivity|].
  rewrite NoteModel_encode_id, NoteModel_encode_created.
  destruct (NoteModel_encode_fields
    {| _id := factory;
       created := optional (NoteModel_created_default m) (b_created b);
       updated := optional None (b_updated b);
       text := b_text b; author := b_author b; in_trash := b_in_trash b |})
    as (Hu & Ht & Ha & Hf).
  split_and!; [done|done|exact Hu|exact Ht|exact Ha|exact Hf|].
  rewrite show_note_run, (list_find_app_r _ _ _ (free_id_not_found _ _ Hfree)).
  simpl. rewrite decide_True; [done|].
  by apply matches_by_id, NoteModel_encode_id.
Qed.

Lemma post_then_get_witness :
  b_id hi_body = Absent
  ∧ ¬ id_taken "61484f021c9d440000a1b2c4" sample_store
  ∧ ∃ d, post_note started "61484f021c9d440000a1b2c4" hi_body sample_store
         = (JSONResponse 201 (Doc d), sample_store ++ [d])
         ∧ d !! "text" = Some (JStr "hi").
Proof.
  assert (Hfree : ¬ id_taken "61484f021c9d440000a1b2c4" sample_store).
  { unfold id_taken. apply (bool_decide_unpack _). by vm_compute. }
  split_and!; [reflexivity | exact Hfree |].
  destruct (post_then_get started "61484f021c9d440000a1b2c4" hi_body
              sample_store eq_refl Hfree)
    as (d & Hrun & _ & _ & _ & Htext & _).
  exists d. split; [exact Hrun | exact Htext].
Defined.

Lemma apply_set_idem fields (d : document) :
  apply_set fields (apply_set fields d) = apply_set fields d.
Proof.
  apply map_eq. intros k. rewrite !apply_set_lookup.
  by destruct (list_to_map fields !! k).
Qed.

(** X5: sending the same update a second time changes nothing more: the
    second call gives the answer and the collection of the first. *)
Theorem update_twice id note (s : collection) :
  update_note id note (update_note id note s).2 = update_note id note s.
Proof.
  rewrite (update_note_run id note s).
  destruct (list_find (matches (by_id id)) s) as [[i d]|] eqn:Hfind; cbn [snd].
  - assert (Hkeep : matches (by_id id) (apply_set (sparse note) d)).
    { apply matches_by_id. rewrite sparse_keeps_id.
      apply matches_by_id. by eapply find_some_elem. }
    rewrite update_note_run, (find_insert_same _ _ _ _ _ Hfind Hkeep).
    by rewrite apply_set_idem, list_insert_insert_eq.
  - by rewrite update_note_run, Hfind.
Qed.

(** After a trash or restore that passed its guard, a second one that
    passes its guard decides the flag alone. *)
Lemma set_trash_last_wins f1 f2 id n1 n2 (s : collection) :
  guard_passes (u_in_trash n2) = true →
  set_trash f2 id n2 (set_trash f1 id n1 s).2 = set_trash f2 id n2 s.
Proof.
  intros Hg2. rewrite (set_trash_run f1).
  destruct (guard_passes (u_in_trash n1)); [|done].
  destruct (list_find (matches (by_id id)) s) as [[i d]|] eqn:Hfind; [|done].
  cbn [snd]. rewrite !set_trash_run, Hg2, Hfind.
  assert (Hkeep : matches (by_id id) (<["in_trash" := JBool f1]> d)).
  { apply matches_by_id. rewrite lookup_insert_ne by done.
    apply matches_by_id. by eapply find_some_elem. }
  rewrite (find_insert_same _ _ _ _ _ Hfind Hkeep).
  by rewrite insert_insert_eq, list_insert_insert_eq.
Qed.

Lemma guard_passes_iff flag : guard_passes flag = true ↔ flag ≠ Some true.
Proof. destruct flag as [[]|]; naive_solver. Qed.

(** X6: moving to trash twice, or restoring twice, with the same request is
    the same as doing it once: same answer, same collection. *)
Theorem trash_routes_idempotent id note (s : collection) :
  remove_note id note (remove_note id note s).2 = remove_note id note s
  ∧ move_note id note (move_note id note s).2 = move_note id note s.
Proof.
  assert (Hany : ∀ flag,
    set_trash flag id note (set_trash flag id note s).2
    = set_trash flag id note s).
  { intros flag. destruct (guard_passes (u_in_trash note)) eqn:Hg.
    - by apply set_trash_last_wins.
    - by rewrite !set_trash_run, Hg. }
  split; [apply (Hany true) | apply (Hany false)].
Qed.

(** X7: a restore whose body passes the guard undoes a move to trash: after
    the two calls the answer and the collection are those of the restore
    alone, and a Note that was stored with [in_trash] false is returned and
    stored exactly as it was before the two calls. *)
Theorem trash_then_restore id n1 n2 (s : collection) :
  u_in_trash n2 ≠ Some true →
  move_note id n2 (remove_note id n1 s).2 = move_note id n2 s
  ∧ ∀ i d,
      list_find (matches (by_id id)) s = Some (i, d) →
      d !! "in_trash" = Some (JBool false) →
      move_note id n2 (remove_note id n1 s).2 = (JSONResponse 200 (Doc d), s).
Proof.
  intros Hg%guard_passes_iff.
  assert (Hlast : move_note id n2 (remove_note id n1 s).2 = move_note id n2 s)
    by (by apply set_trash_last_wins).
  split; [done|]. intros i d Hfind Hflag. rewrite Hlast.
  unfold move_note. rewrite set_trash_run, Hg, Hfind.
  rewrite (insert_id d) by done.
  by rewrite list_insert_id by (by eapply find_some_elem).
Qed.

Lemma trash_then_restore_witness :
  u_in_trash (UpdateNoteModel_validate (flag_body (Given false))) ≠ Some true
  ∧ move_note sample_id (UpdateNoteModel_validate (flag_body (Given false)))
      (remove_note sample_id
         (UpdateNoteModel_validate (flag_body (Given false))) sample_store).2
    = (JSONResponse 200 (Doc sample_note), sample_store).
Proof.
  assert (Hg : u_in_trash (UpdateNoteModel_validate (flag_body (Given false)))
               ≠ Some true) by (simpl; congruence).
  split; [exact Hg|].
  apply (trash_then_restore sample_id _ _ sample_store Hg) with (i := 0);
    reflexivity.
Defined.

(** X8: the document an update, a move to trash or a restore returns is the
    stored one: fetching the id right after gives the same answer.  (When
    the guard of a trash route rejects the body nothing was written, and the
    fetch answers as it would have before.) *)
Theorem response_is_stored id note (s : collection) :
  (show_note id (update_note id note s).2).1 = (update_note id note s).1
  ∧ (show_note id (remove_note id note s).2).1
    = (if guard_passes (u_in_trash note) then (remove_note id note s).1
       else (show_note id s).1)
  ∧ (show_note id (move_note id note s).2).1
    = (if guard_passes (u_in_trash note) then (move_note id note s).1
       else (show_note id s).1).
Proof.
  assert (Htrash : ∀ flag,
    (show_note id (set_trash flag id note s).2).1
    = (if guard_passes (u_in_trash note) then (set_trash flag id note s).1
       else (show_note id s).1)).
  { intros flag. rewrite set_trash_run.
    destruct (guard_passes (u_in_trash note)); [|done].
    destruct (list_find (matches (by_id id)) s) as [[i d]|] eqn:Hfind;
      cbn [fst snd].
    - assert (Hkeep : matches (by_id id) (<["in_trash" := JBool flag]> d)).
      { apply matches_by_id. rewrite lookup_insert_ne by done.
        apply matches_by_id. by eapply find_some_elem. }
      by rewrite show_note_run, (find_insert_same _ _ _ _ _ Hfind Hkeep).
    - by rewrite show_note_run, Hfind. }
  split_and!; [|apply (Htrash true)|apply (Htrash false)].
  rewrite update_note_run.
  destruct (list_find (matches (by_id id)) s) as [[i d]|] eqn:Hfind;
    cbn [fst snd].
  - assert (Hkeep : matches (by_id id) (apply_set (sparse note) d)).
    { apply matches_by_id. rewrite sparse_keeps_id.
      apply matches_by_id. by eapply find_some_elem. }
    by rewrite show_note_run, (find_insert_same _ _ _ _ _ Hfind Hkeep).
  - by rewrite show_note_run, Hfind.
Qed.

(** X9: with unique ids, a second delete of the same id fails with NotFound
    and leaves the collection as the first delete left it. *)
Theorem delete_twice id (s : collection) :
  unique_ids s →
  delete_note id (delete_note id s).2 = (not_found id, (delete_note id s).2).
Proof.
  intros Huniq. rewrite (delete_note_run id s).
  destruct (list_find (matches (by_id id)) s) as [[i d]|] eqn:Hfind; cbn [snd].
  - destruct (find_some_elem _ _ _ _ Hfind) as [Hi Hm].
    apply matches_by_id in Hm.
    assert (Hgone : list_find (matches (by_id id)) (delete i s) = None).
    { apply no_such_id_iff. intros d' Hd'.
      by apply (delete_removes_id s i d _ Huniq Hi Hm). }
    by rewrite delete_note_run, Hgone.
  - by rewrite delete_note_run, Hfind.
Qed.

Lemma delete_twice_witness :
  unique_ids sample_store
  ∧ delete_note sample_id (delete_note sample_id sample_store).2
    = (not_found sample_id, []).
Proof.
  assert (Huniq : unique_ids sample_store).
  { unfold unique_ids. simpl. apply NoDup_singleton. }
  split; [exact Huniq|].
  apply (delete_twice sample_id sample_store Huniq).
Defined.

Lemma elem_of_delete_other {A} (l : list A) i x y :
  y ∈ l → l !! i = Some x → y ≠ x → y ∈ delete i l.
Proof.
  intros [j Hj]%list_elem_of_lookup Hi Hne.
  assert (j ≠ i) by (intros ->; congruence).
  destruct (decide (j < i)).
  - apply (list_elem_of_lookup_2 _ j). by rewrite list_lookup_delete_lt.
  - apply (list_elem_of_lookup_2 _ (pred j)).
    rewrite list_lookup_delete_ge by lia.
    by replace (S (pred j)) with j by lia.
Qed.

Lemma doc_id_id_str (d : document) i :
  d !! "_id" = Some (JStr i) → id_str d = Some i.
Proof. unfold id_str. by intros ->. Qed.

(** X10: with unique ids, deleting an id removes that id and no other from
    the set of stored ids (and removes nothing when the id is not stored). *)
Theorem delete_removes_only_that_id id (s : collection) :
  unique_ids s →
  ids (delete_note id s).2 = ids s ∖ {[id]}.
Proof.
  intros Huniq. rewrite delete_note_run.
  apply set_eq. intros x.
  rewrite elem_of_difference, elem_of_singleton, !elem_of_ids.
  destruct (list_find (matches (by_id id)) s) as [[i d]|] eqn:Hfind; cbn [snd].
  - destruct (find_some_elem _ _ _ _ Hfind) as [Hi Hm].
    apply matches_by_id in Hm. split.
    + intros (d' & Hd' & Hx). split.
      * exists d'. split; [|done]. by eapply list_elem_of_delete_inv.
      * intros ->. apply id_str_doc_id in Hx.
        by apply (delete_removes_id s i d _ Huniq Hi Hm d' Hd').
    + intros [(d' & Hd' & Hx) Hne]. exists d'. split; [|done].
      apply (elem_of_delete_other s i d); [done..|].
      intros ->. rewrite (doc_id_id_str _ _ Hm) in Hx. congruence.
  - split; [|naive_solver].
    intros (d' & Hd' & Hx). split; [eauto|].
    intros ->. apply id_str_doc_id in Hx.
    by apply (proj1 (no_such_id_iff id s) Hfind d' Hd').
Qed.

Lemma delete_removes_only_that_id_witness :
  unique_ids sample_store
  ∧ ids (delete_note sample_id sample_store).2
    = ids sample_store ∖ {[sample_id]}.
Proof.
  assert (Huniq : unique_ids sample_store).
  { unfold unique_ids. simpl. apply NoDup_singleton. }
  split; [exact Huniq|].
  apply (delete_removes_only_that_id sample_id sample_store Huniq).
Defined.

(** After a trash or restore that passed its guard the Note with the id is
    not in the list of the other flag, and is in the list of the written
    flag when that list is within the cap. *)
Lemma set_trash_listed flag id note (s : collection) :
  unique_ids s → guard_passes (u_in_trash note) = true → id ∈ ids s →
  (id ∉ ids (take 1000 (filter (matches (by_in_trash (negb flag)))
                          (set_trash flag id note s).2)))
  ∧ (length (filter (matches (by_in_trash flag))
               (set_trash flag id note s).2) ≤ 1000 →
     id ∈ ids (take 1000 (filter (matches (by_in_trash flag))
                            (set_trash flag id note s).2))).
Proof.
  intros Huniq Hg (d0 & Hd0 & Hid0)%elem_of_ids.
  rewrite set_trash_run, Hg.
  destruct (list_find (matches (by_id id)) s) as [[i d]|] eqn:Hfind.
  2:{ apply id_str_doc_id in Hid0.
      by destruct (proj1 (no_such_id_iff id s) Hfind d0 Hd0). }
  destruct (find_some_elem _ _ _ _ Hfind) as [Hi Hm].
  apply matches_by_id in Hm. cbn [snd].
  set (d' := <["in_trash" := JBool flag]> d).
  assert (Hid' : d' !! "_id" = Some (JStr id))
    by (unfold d'; by rewrite lookup_insert_ne).
  assert (Hflag' : d' !! "in_trash" = Some (JBool flag))
    by (unfold d'; by rewrite lookup_insert_eq).
  assert (Hin' : d' ∈ <[i := d']> s).
  { apply (list_elem_of_lookup_2 _ i), list_lookup_insert_eq.
    by eapply lookup_lt_Some. }
  assert (Huniq' : unique_ids (<[i := d']> s)).
  { unfold unique_ids. rewrite (ids_insert s i d); [done..|].
    unfold doc_id. by rewrite Hid', Hm. }
  split.
  - intros (d1 & Hd1 & Hid1)%elem_of_ids.
    apply elem_of_listing in Hd1 as [Hd1 Hflag1].
    assert (d1 = d') as ->.
    { apply (unique_ids_inj _ _ _ Huniq' Hd1 Hin').
      rewrite (id_str_doc_id _ _ Hid1). unfold doc_id. by rewrite Hid'. }
    rewrite Hflag' in Hflag1. by destruct flag.
  - intros Hcap. rewrite (take_ge _ _ Hcap).
    apply elem_of_ids. exists d'. split; [|by apply doc_id_id_str].
    apply list_elem_of_filter. split; [|done]. by apply matches_by_in_trash.
Qed.

(** X11: with unique ids, after a move to trash that passed its guard the
    Note is not listed as active, and is listed as trashed when at most 1000
    Notes are trashed; after a restore that passed its guard it is not listed
    as trashed, and is listed as active when at most 1000 Notes are active. *)
Theorem trash_moves_between_lists id note (s : collection) :
  unique_ids s →
  u_in_trash note ≠ Some true →
  id ∈ ids s →
  (id ∉ ids (active (remove_note id note s).2))
  ∧ (length (filter (matches (by_in_trash true)) (remove_note id note s).2)
       ≤ 1000 →
     id ∈ ids (trashed (remove_note id note s).2))
  ∧ (id ∉ ids (trashed (move_note id note s).2))
  ∧ (length (filter (matches (by_in_trash false)) (move_note id note s).2)
       ≤ 1000 →
     id ∈ ids (active (move_note id note s).2)).
Proof.
  intros Huniq Hg%guard_passes_iff Hin.
  destruct (set_trash_listed true id note s Huniq Hg Hin) as [H1 H2].
  destruct (set_trash_listed false id note s Huniq Hg Hin) as [H3 H4].
  split_and!; [exact H1 | exact H2 | exact H3 | exact H4].
Qed.

Lemma trash_moves_between_lists_witness :
  unique_ids sample_store
  ∧ u_in_trash (UpdateNoteModel_validate (flag_body Absent)) ≠ Some true
  ∧ sample_id ∈ ids sample_store
  ∧ (sample_id
     ∉ ids (active (remove_note sample_id
                      (UpdateNoteModel_validate (flag_body Absent))
                      sample_store).2)).
Proof.
  assert (Huniq : unique_ids sample_store).
  { unfold unique_ids. simpl. apply NoDup_singleton. }
  assert (Hg : u_in_trash (UpdateNoteModel_validate (flag_body Absent))
               ≠ Some true) by (simpl; congruence).
  assert (Hin : sample_id ∈ ids sample_store).
  { apply elem_of_ids. exists sample_note. split; [|reflexivity].
    apply list_elem_of_singleton. reflexivity. }
  split_and!; [exact Huniq | exact Hg | exact Hin |].
  destruct (trash_moves_between_lists sample_id
              (UpdateNoteModel_validate (flag_body Absent)) sample_store
              Huniq Hg Hin) as [Hactive _].
  exact Hactive.
Defined.



(** X14: a Note posted without an id, the drawn id being free, is listed
    under its own flag when that list is within the cap (as active when
    posted with [in_trash] false, as trashed when posted with it true), and
    is never in the other list. *)
Theorem post_then_listed m factory b (s : collection) :
  b_id b = Absent →
  ¬ id_taken factory s →
  (length (filter (matches (by_in_trash (b_in_trash b)))
             (post_note m factory b s).2) ≤ 1000 →
   factory ∈ ids (if b_in_trash b then trashed (post_note m factory b s).2
                  else active (post_note m factory b s).2))
  ∧ (factory ∉ ids (if b_in_trash b then active (post_note m factory b s).2
                    else trashed (post_note m factory b s).2)).
Proof.
  intros Hid Hfree.
  destruct (post_then_get m factory b s Hid Hfree)
    as (d & -> & Hdid & _ & _ & _ & _ & Hflag & _).
  cbn [snd].
  assert (Hlisted : ∀ flag,
    factory ∈ ids (take 1000 (filter (matches (by_in_trash flag)) (s ++ [d])))
    → flag = b_in_trash b).
  { intros flag (d1 & Hd1 & Hid1)%elem_of_ids.
    apply elem_of_listing in Hd1 as [Hd1 Hflag1].
    apply elem_of_app in Hd1 as [Hd1|Hd1%list_elem_of_singleton].
    - destruct Hfree. apply Exists_exists. exists d1. split; [done|].
      by apply id_str_doc_id.
    - subst d1. congruence. }
  split.
  - intros Hcap.
    assert (factory ∈ ids (take 1000
              (filter (matches (by_in_trash (b_in_trash b))) (s ++ [d]))))
      as Hin.
    { rewrite (take_ge _ _ Hcap). apply elem_of_ids. exists d.
      split; [|by apply doc_id_id_str].
      apply list_elem_of_filter. split; [by apply matches_by_in_trash|].
      apply elem_of_app. right. by apply list_elem_of_singleton. }
    destruct (b_in_trash b); exact Hin.
  - destruct (b_in_trash b) eqn:Hb; intros Hin.
    + by specialize (Hlisted false Hin).
    + by specialize (Hlisted true Hin).
Qed.

Lemma post_then_listed_witness :
  b_id hi_body = Absent
  ∧ ¬ id_taken "61484f021c9d440000a1b2c4" sample_store
  ∧ ("61484f021c9d440000a1b2c4"
     ∉ ids (trashed
              (post_note started "61484f021c9d440000a1b2c4" hi_body
                 sample_store).2)).
Proof.
  assert (Hfree : ¬ id_taken "61484f021c9d440000a1b2c4" sample_store).
  { unfold id_taken. apply (bool_decide_unpack _). by vm_compute. }
  split_and!; [reflexivity | exact Hfree |].
  destruct (post_then_listed started "61484f021c9d440000a1b2c4" hi_body
              sample_store eq_refl Hfree) as [_ Hout].
  exact Hout.
Defined.
